(** * SegmentedButtonGroup: a shallow embedding of
    [src/components/SegmentedButton/SegmentedButtonGroup.tsx]

    The component validates the number of its children, provides a
    selection context and clones every child whose element type is
    [SegmentedButton] with a position tag, the multiselect flag and a
    one-entry style list.

    The embedding follows the source line by line.  The parts of React and
    React Native the component calls ([React.Children.count],
    [React.Children.map], [React.cloneElement], [React.createContext] and
    the resolution of style arrays) are modelled from their documented
    behaviour, the keys [React.Children.map] gives to the elements it
    returns included.  [ref] is not modelled: [cloneElement] keeps it when
    its second argument does not name it, which is the case here. *)

From Stdlib Require Import Ascii.
From stdpp Require Import prelude strings gmap list fin_maps.

Open Scope string_scope.
Open Scope nat_scope.
Set Warnings "-register-all".

(** ** JavaScript values *)

(** A heap reference.  Functions and string arrays are reference values:
    the component stores and forwards the reference and never reads the
    object behind it. *)
Definition Ref := nat.

(** Values found in props and in styles.  Integers stand for numbers; the
    fields of an object have distinct names. *)
Inductive JSValue :=
| JUndefined
| JNull
| JBool (b : bool)
| JNumber (n : Z)
| JString (s : string)
| JRef (r : Ref)
| JArray (items : list JSValue)
| JObject (fields : list (string * JSValue)).

(** An absent optional boolean prop is [undefined]. *)
Definition js_of_flag (flag : option bool) : JSValue :=
  match flag with
  | Some b => JBool b
  | None => JUndefined
  end.

(** ** React elements and nodes *)

(** Modelled from the spec: the expected button type.  [SegmentedButton]
    is the component imported from [./SegmentedButton], whose file is not
    among the sources; the group only compares [element.type] against its
    identity.  Every other component or host tag is an [OtherType]. *)
Inductive ElementType :=
| SegmentedButton
| OtherType (name : string).

#[global] Instance ElementType_eq_dec : EqDecision ElementType.
Proof. solve_decision. Defined.

Record ReactElement := mkElement {
  type : ElementType;
  key : option string;
  props : gmap string JSValue;
}.

(** [props.name]: a missing property reads as [undefined]. *)
Definition get_prop (e : ReactElement) (name : string) : JSValue :=
  default JUndefined (props e !! name).

(** [React.ReactNode]. *)
Inductive ReactNode :=
| RNull
| RUndefined
| RBoolean (b : bool)
| RText (s : string)
| RNumber (n : Z)
| RElement (e : ReactElement)
| RPortal (r : Ref)
| RArray (items : list ReactNode).

(** ** Keys of children *)

(** [index.toString(36)]. *)
Definition digit36 (d : nat) : string :=
  String.substring d 1 "0123456789abcdefghijklmnopqrstuvwxyz".

Fixpoint base36_digits (fuel n : nat) (acc : string) : string :=
  match fuel with
  | 0 => acc
  | S fuel' =>
      let acc' := String.append (digit36 (n mod 36)) acc in
      if n / 36 =? 0 then acc' else base36_digits fuel' (n / 36) acc'
  end.

Definition base36 (n : nat) : string := base36_digits (S n) n "".

(** React's [escape]: ['$'] followed by the key with [=] written [=0]
    and [:] written [=2]. *)
Fixpoint escape_chars (k : string) : string :=
  match k with
  | EmptyString => ""
  | String c rest =>
      String.append
        (if Ascii.eqb c "="%char then "=0"
         else if Ascii.eqb c ":"%char then "=2"
         else String c "")
        (escape_chars rest)
  end.

Definition escape (k : string) : string := String.append "$" (escape_chars k).

(** React's [escapeUserProvidedKey]: every run of slashes gets one more. *)
Fixpoint escapeUserProvidedKey (k : string) : string :=
  match k with
  | EmptyString => ""
  | String c rest =>
      if Ascii.eqb c "/"%char then
        match rest with
        | String c' _ =>
            if Ascii.eqb c' "/"%char then String c (escapeUserProvidedKey rest)
            else String c (String c (escapeUserProvidedKey rest))
        | EmptyString => String c (String c "")
        end
      else String c (escapeUserProvidedKey rest)
  end.

(** React's [getElementKey]: the escaped key of an element that has one,
    the index in base 36 otherwise. *)
Definition getElementKey (child : ReactNode) (index : nat) : string :=
  match child with
  | RElement {| key := Some k |} => escape k
  | _ => base36 index
  end.

(** [cloneAndReplaceKey] on an element; other values are pushed as they
    are. *)
Definition with_key (k : string) (n : ReactNode) : ReactNode :=
  match n with
  | RElement e => RElement {| type := type e; key := Some k; props := props e |}
  | _ => n
  end.

(** [child.key] as the traversal reads it. *)
Definition key_of (n : ReactNode) : option string :=
  match n with
  | RElement e => key e
  | _ => None
  end.

(** ** React.Children *)

(** The nodes [React.Children] visits with the name the traversal gives
    each: ['.'] and the element key at the top, the parent's name, [':']
    and the element key inside a list. *)
Fixpoint Children_entries (nameSoFar : string) (children : ReactNode)
    : list (string * ReactNode) :=
  let own := if String.eqb nameSoFar "" then String.append "." (getElementKey children 0)
             else nameSoFar in
  match children with
  | RArray items =>
      let prefix := if String.eqb nameSoFar "" then "."
                    else String.append nameSoFar ":" in
      (fix go (i : nat) (l : list ReactNode) : list (string * ReactNode) :=
         match l with
         | [] => []
         | child :: rest =>
             app (Children_entries (String.append prefix (getElementKey child i))
                                   child)
                 (go (S i) rest)
         end) 0 items
  | RUndefined | RBoolean _ => [(own, RNull)]
  | _ => [(own, children)]
  end.

(** The nodes [React.Children] visits, in order.  Arrays are not nodes of
    their own, their items are; [undefined] and booleans are handed to the
    callback as [null]; elements are not traversed. *)
Fixpoint Children_nodes (children : ReactNode) : list ReactNode :=
  match children with
  | RArray items => concat (map Children_nodes items)
  | RUndefined | RBoolean _ => [RNull]
  | _ => [children]
  end.

(** [React.Children.count(children)]: [null] and [undefined] as the whole
    [children] value count zero. *)
Definition Children_count (children : ReactNode) : nat :=
  match children with
  | RNull | RUndefined => 0
  | _ => length (Children_nodes children)
  end.

(** Whether a node is something other than [null] is decidable. *)
#[global] Instance ReactNode_null_dec (n : ReactNode) : Decision (n ≠ RNull).
Proof. destruct n; (left; discriminate) || (right; intros H; by apply H). Defined.

(** The entries a list of children is pushed as when nothing is done to
    them: empty nodes are left out, elements get [prefix] and their name
    as key. *)
Definition Children_push_all (prefix : string) (children : ReactNode)
    : list ReactNode :=
  filter (λ n, n ≠ RNull)
         ((λ entry, with_key (String.append prefix entry.1) entry.2)
            <$> Children_entries "" children).

(** The part of a new key that comes from the returned element: its own
    key, escaped and followed by ['/'], when it has one that is not the
    child's. *)
Definition mapped_key_prefix (child : ReactNode) (mapped : ReactElement)
    : string :=
  match key mapped with
  | Some k =>
      if bool_decide (k ≠ "" ∧ key_of child ≠ Some k)
      then String.append (escapeUserProvidedKey k) "/"
      else ""
  | None => ""
  end.

(** What one value returned by the callback adds to the result array:
    [null] and [undefined] are left out, a returned array is flattened
    under the child's name, an element is pushed with its new key,
    anything else is pushed as it is. *)
Definition Children_collect (childKey : string) (child mapped : ReactNode)
    : list ReactNode :=
  match mapped with
  | RNull | RUndefined => []
  | RArray _ =>
      Children_push_all (String.append (escapeUserProvidedKey childKey) "/") mapped
  | RElement e =>
      [with_key (String.append (mapped_key_prefix child e) childKey) mapped]
  | _ => [mapped]
  end.

(** [React.Children.map(children, fn)]: [null] and [undefined] are returned
    as they are; otherwise [fn] is called on every visited node with its
    running index and the returned values are collected in a flat array. *)
Definition Children_map (children : ReactNode)
    (fn : ReactNode → nat → ReactNode) : ReactNode :=
  match children with
  | RNull => RNull
  | RUndefined => RUndefined
  | _ =>
      RArray (concat (imap (λ i entry,
                              Children_collect entry.1 entry.2 (fn entry.2 i))
                           (Children_entries "" children)))
  end.

(** [React.Children.toArray(children)] is [Children.map] with the identity.
    It is not called by the component; it names the array a list of
    children turns into when nothing is done to them. *)
Definition Children_toArray (children : ReactNode) : list ReactNode :=
  Children_push_all "" children.

(** [React.cloneElement(element, config)]: the props of [element] shallowly
    overridden by the entries of [config], in the order they are written;
    the type and the key are kept.  An [undefined] entry is written as
    [undefined] (React's legacy substitution of the type's [defaultProps]
    for it is not modelled). *)
Definition cloneElement (element : ReactElement)
    (config : list (string * JSValue)) : ReactElement :=
  {| type := type element;
     key := key element;
     props := foldl (λ acc kv, <[kv.1 := kv.2]> acc) (props element) config |}.

(** ** Rendering *)

(** A function component runs against the hook cells React keeps for it
    and either returns or throws. *)
Definition Hooks := list JSValue.

Inductive JsError :=
| Error (message : string).

Definition Render (A : Type) : Type := Hooks → (JsError + A) * Hooks.

#[global] Instance Render_ret : MRet Render := λ A a h, (inr a, h).

#[global] Instance Render_bind : MBind Render := λ A B k m h,
  match m h with
  | (inl e, h') => (inl e, h')
  | (inr a, h') => k a h'
  end.

Definition throw {A} (e : JsError) : Render A := λ h, (inl e, h).

(** ** The component *)

(** [value: string | string[] | null].  A string array is a reference. *)
Inductive Selection :=
| SelNull
| SelString (s : string)
| SelArray (r : Ref).

(** The props of the group.  [onValueChange] is a function object;
    [multiselect] and [style] are optional ([None], [JUndefined]). *)
Record Props := mkProps {
  value : Selection;
  onValueChange : Ref;
  multiselect : option bool;
  children : ReactNode;
  style : JSValue;
}.

(** [SegmentedButtonContextType], as an object at run time: a field that
    was never written reads as [undefined] ([None]). *)
Record SegmentedButtonContextType := mkContext {
  ctx_value : option Selection;
  ctx_onValueChange : option Ref;
}.

(** [React.createContext({} as SegmentedButtonContextType)]: the default
    value is the empty object. *)
Definition SegmentedButtonGroupContext : SegmentedButtonContextType :=
  {| ctx_value := None; ctx_onValueChange := None |}.

(** [React.useContext(SegmentedButtonGroupContext)] in a descendant: the
    value of the nearest enclosing provider (the head of [providers]), the
    context's default when there is none. *)
Definition useContext (providers : list SegmentedButtonContextType)
    : SegmentedButtonContextType :=
  match providers with
  | nearest :: _ => nearest
  | [] => SegmentedButtonGroupContext
  end.

(** [StyleSheet.create({ row: { flexDirection: 'row' } })]. *)
Definition styles_row : JSValue :=
  JObject [("flexDirection", JString "row")].

(** [<View style={...}>{...}</View>]. *)
Record ViewElement := mkView {
  view_style : JSValue;
  view_children : ReactNode;
}.

(** [<SegmentedButtonGroupContext.Provider value={...}>...</...>]. *)
Record ProviderElement := mkProvider {
  provider_value : SegmentedButtonContextType;
  provider_child : ViewElement;
}.

Definition invalid_count_message : string :=
  "Segmented buttons are best used for selecting between 2 and 5 choices. If you have more than five choices, consider using another component, such as chips.".

(** [i === 0 ? 'first' : i === count - 1 ? 'last' : 'default'].
    [count - 1] is computed on integers: it is [-1] for [count = 0]. *)
Definition segment_of (count i : nat) : string :=
  if Nat.eqb i 0 then "first"
  else if Z.eqb (Z.of_nat i) (Z.of_nat count - 1) then "last"
  else "default".

(** The callback handed to [React.Children.map] (source lines 78-93).
    [child && child.type === SegmentedButton] holds for elements of that
    type only: [null] is falsy, and text, numbers and portals have no
    [type] field. *)
Definition annotate (count : nat) (multiselect : option bool)
    (child : ReactNode) (i : nat) : ReactNode :=
  match child with
  | RElement e =>
      if decide (type e = SegmentedButton) then
        RElement (cloneElement e
          [ ("segment", JString (segment_of count i));
            ("multiselect", js_of_flag multiselect);
            ("style", JArray [get_prop e "style"]) ])
      else child
  | _ => child
  end.

(** The component function (source lines 56-97). *)
Definition SegmentedButtonGroup (p : Props) : Render ProviderElement :=
  let count := Children_count (children p) in
  _ ← (if (count <? 2) || (5 <? count)
       then throw (Error invalid_count_message)
       else mret tt);
  mret {| provider_value :=
            {| ctx_value := Some (value p);
               ctx_onValueChange := Some (onValueChange p) |};
          provider_child :=
            {| view_style := JArray [styles_row; style p];
               view_children :=
                 Children_map (children p) (annotate count (multiselect p)) |} |}.

(** ** Style resolution *)

(** The fields of an object literal as a map: of two fields with the
    same name the later one stays. *)
Definition object_fields (fields : list (string * JSValue))
    : gmap string JSValue :=
  list_to_map (reverse fields).

(** React Native's [StyleSheet.flatten]: [undefined] ([None]) for [null]
    and for anything that is not an object; an object is returned as it
    is; an array is read left to right into a new object, entries that
    resolve to nothing are skipped and later entries overwrite earlier
    ones. *)
Fixpoint StyleSheet_flatten (s : JSValue) : option (gmap string JSValue) :=
  match s with
  | JObject fields => Some (object_fields fields)
  | JArray items =>
      Some (foldl (λ acc item,
                     match StyleSheet_flatten item with
                     | Some computed => computed ∪ acc
                     | None => acc
                     end) ∅ items)
  | _ => None
  end.

(** The properties a style sets once resolved: those of the object
    [StyleSheet.flatten] returns, none when it returns [undefined]. *)
Definition flattenStyle (s : JSValue) : gmap string JSValue :=
  default ∅ (StyleSheet_flatten s).

(** ** Vocabulary of the statements *)

(** The direct descendants: the children the callback is called on, in
    index order. *)
Definition descendants (p : Props) : list ReactNode :=
  Children_nodes (children p).

(** A descendant of the expected button type. *)
Definition is_button (n : ReactNode) : bool :=
  match n with
  | RElement e => bool_decide (type e = SegmentedButton)
  | _ => false
  end.

(** The values the callback returns, in index order, each under the key
    [React.Children.map] gives it. *)
Definition annotated (p : Props) : list ReactNode :=
  imap (λ i entry,
          with_key entry.1
            (annotate (Children_count (children p)) (multiselect p) entry.2 i))
       (Children_entries "" (children p)).

(** The children of the rendered container. *)
Definition rendered_children (out : ProviderElement) : list ReactNode :=
  match view_children (provider_child out) with
  | RArray items => items
  | _ => []
  end.

(** Where the descendant at index [i] lands in the rendered container:
    empty descendants before it take no place. *)
Definition output_index (p : Props) (i : nat) : nat :=
  length (filter (λ n, n ≠ RNull) (take i (descendants p))).

(** A visited node is [null], text, a number, an element or a portal. *)
Definition is_leaf (n : ReactNode) : bool :=
  match n with
  | RArray _ | RUndefined | RBoolean _ => false
  | _ => true
  end.

(** The [segment] prop of an element, when it is a string. *)
Definition segment_prop (n : ReactNode) : option string :=
  match n with
  | RElement e =>
      match props e !! "segment" with
      | Some (JString s) => Some s
      | _ => None
      end
  | _ => None
  end.

(** * Example inputs *)

(** A segmented button with an icon and a value. *)
Definition button (icon v : string) : ReactNode :=
  RElement {| type := SegmentedButton; key := None;
              props := {[ "icon" := JString icon; "value" := JString v ]} |}.

(** A segmented button that carries a style of its own. *)
Definition styled_button (icon v : string) (s : JSValue) : ReactNode :=
  RElement {| type := SegmentedButton; key := None;
              props := {[ "icon" := JString icon; "value" := JString v;
                          "style" := s ]} |}.

(** An element of another type. *)
Definition label (text : string) : ReactNode :=
  RElement {| type := OtherType "Text"; key := None;
              props := {[ "children" := JString text ]} |}.

(** The usage example of the component's documentation: value ['left'],
    two buttons, [onValueChange] some function object. *)
Definition usage_props : Props :=
  {| value := SelString "left";
     onValueChange := 1;
     multiselect := None;
     children := RArray [ button "format-align-left" "left";
                          button "format-align-right" "right" ];
     style := JUndefined |}.

(** A label followed by three buttons, the last with a style of its own;
    the group has a style too. *)
Definition labelled_props : Props :=
  {| value := SelNull;
     onValueChange := 1;
     multiselect := Some true;
     children := RArray [ label "Align"; button "a" "a"; button "b" "b";
                          styled_button "c" "c" (JObject [("flex", JNumber 1)]) ];
     style := JObject [("flexDirection", JString "column")] |}.

(** Two labels and no button. *)
Definition labels_props : Props :=
  {| value := SelNull;
     onValueChange := 1;
     multiselect := None;
     children := RArray [ label "one"; label "two" ];
     style := JUndefined |}.

(** The same props with another group-level style. *)
Definition with_style (p : Props) (s : JSValue) : Props :=
  {| value := value p;
     onValueChange := onValueChange p;
     multiselect := multiselect p;
     children := children p;
     style := s |}.

(** What the usage example renders: the first button tagged ["first"],
    the second ["last"]. *)
Definition usage_output : ProviderElement :=
  {| provider_value :=
       {| ctx_value := Some (SelString "left"); ctx_onValueChange := Some 1 |};
     provider_child :=
       {| view_style := JArray [styles_row; JUndefined];
          view_children := RArray
            [ RElement {| type := SegmentedButton; key := Some ".0";
                          props := {[ "icon" := JString "format-align-left";
                                      "value" := JString "left";
                                      "segment" := JString "first";
                                      "multiselect" := JUndefined;
                                      "style" := JArray [JUndefined] ]} |};
              RElement {| type := SegmentedButton; key := Some ".1";
                          props := {[ "icon" := JString "format-align-right";
                                      "value" := JString "right";
                                      "segment" := JString "last";
                                      "multiselect" := JUndefined;
                                      "style" := JArray [JUndefined] ]} |} ] |} |}.

(** What the labelled example renders: the label as it was, the buttons
    tagged ["default"], ["default"] and ["last"]. *)
Definition labelled_output : ProviderElement :=
  {| provider_value :=
       {| ctx_value := Some SelNull; ctx_onValueChange := Some 1 |};
     provider_child :=
       {| view_style :=
            JArray [styles_row; JObject [("flexDirection", JString "column")]];
          view_children := RArray
            [ with_key ".0" (label "Align");
              RElement {| type := SegmentedButton; key := Some ".1";
                          props := {[ "icon" := JString "a";
                                      "value" := JString "a";
                                      "segment" := JString "default";
                                      "multiselect" := JBool true;
                                      "style" := JArray [JUndefined] ]} |};
              RElement {| type := SegmentedButton; key := Some ".2";
                          props := {[ "icon" := JString "b";
                                      "value" := JString "b";
                                      "segment" := JString "default";
                                      "multiselect" := JBool true;
                                      "style" := JArray [JUndefined] ]} |};
              RElement {| type := SegmentedButton; key := Some ".3";
                          props := {[ "icon" := JString "c";
                                      "value" := JString "c";
                                      "segment" := JString "last";
                                      "multiselect" := JBool true;
                                      "style" :=
                                        JArray [JObject [("flex", JNumber 1)]] ]} |} ] |} |}.

(** ** The position rule by rank among the buttons *)

(** The position rule as the specification words it: among the rendered buttons the first
    is tagged ["first"], the last ["last"], the others ["default"]. *)
Definition buttons_tagged_by_rank (p : Props) : Prop :=
  ∀ h out, SegmentedButtonGroup p h = (inr out, h) →
    let buttons := filter (λ n, is_button n = true) (rendered_children out) in
    (∀ b, buttons !! 0 = Some b → segment_prop b = Some "first") ∧
    (∀ b, 1 < length buttons → buttons !! (length buttons - 1) = Some b →
          segment_prop b = Some "last") ∧
    (∀ j b, 0 < j < length buttons - 1 → buttons !! j = Some b →
            segment_prop b = Some "default").

(** ** Variations of an input *)

(** The same props with other children. *)
Definition with_children (p : Props) (c : ReactNode) : Props :=
  {| value := value p;
     onValueChange := onValueChange p;
     multiselect := multiselect p;
     children := c;
     style := style p |}.

(** ** Children as a caller can pass them *)

(** The declared type of [children] also admits plain objects, which are
    not React nodes.  A plain object is kept with the description React
    prints for it. *)
Inductive ChildrenValue :=
| Node (n : ReactNode)
| PlainObject (description : string)
| Items (items : list ChildrenValue).

Definition invalid_object_message (description : string) : string :=
  String.append "Objects are not valid as a React child (found: "
    (String.append description
       "). If you meant to render a collection of children, use an array instead.").

(** The traversal of [React.Children] over such a value: it throws at the
    first plain object it meets and otherwise sees a React node. *)
Fixpoint as_ReactNode (c : ChildrenValue) : JsError + ReactNode :=
  match c with
  | Node n => inr n
  | PlainObject description => inl (Error (invalid_object_message description))
  | Items items =>
      match
        (fix go (l : list ChildrenValue) : JsError + list ReactNode :=
           match l with
           | [] => inr []
           | x :: rest =>
               match as_ReactNode x with
               | inl e => inl e
               | inr n =>
                   match go rest with
                   | inl e => inl e
                   | inr ns => inr (n :: ns)
                   end
               end
           end) items
      with
      | inl e => inl e
      | inr ns => inr (RArray ns)
      end
  end.

(** The number of direct descendants of such a value, a plain object
    counted as one. *)
Fixpoint ChildrenValue_leaves (c : ChildrenValue) : nat :=
  match c with
  | Node n => length (Children_nodes n)
  | PlainObject _ => 1
  | Items items =>
      (fix go (l : list ChildrenValue) : nat :=
         match l with
         | [] => 0
         | x :: rest => ChildrenValue_leaves x + go rest
         end) items
  end.

Definition ChildrenValue_count (c : ChildrenValue) : nat :=
  match c with
  | Node RNull | Node RUndefined => 0
  | _ => ChildrenValue_leaves c
  end.

(** The component called with any value of the declared type as
    [children]: [React.Children.count] (source line 63) is the first
    thing to run and throws on a plain object; on React nodes the
    component goes on as [SegmentedButtonGroup] has it. *)
Definition SegmentedButtonGroup_call (p : Props) (c : ChildrenValue)
    : Render ProviderElement :=
  match as_ReactNode c with
  | inl e => throw e
  | inr n => SegmentedButtonGroup (with_children p n)
  end.

(** The failure rule as the specification words it: construction fails
    exactly when the number of direct descendants is below 2 or above
    5. *)
Definition fails_only_on_count (p : Props) (c : ChildrenValue) : Prop :=
  ∀ h, (∃ e h', SegmentedButtonGroup_call p c h = (inl e, h')) ↔
       (ChildrenValue_count c < 2 ∨ 5 < ChildrenValue_count c).

(** A plain object next to a button. *)
Definition object_and_button : ChildrenValue :=
  Items [ PlainObject "object with keys {}"; Node (button "a" "a") ].

(** The same element with one prop written by its author. *)
Definition with_prop (e : ReactElement) (name : string) (v : JSValue)
    : ReactElement :=
  {| type := type e; key := key e; props := <[name := v]> (props e) |}.

(** The props the callback writes on a button. *)
Definition written_prop (name : string) : bool :=
  bool_decide (name = "segment" ∨ name = "multiselect" ∨ name = "style").

(** Children written with conditions and a nested list:
    [{false} <a/> {[<Text/>, <b/>]} {null}]. *)
Definition conditional_props : Props :=
  {| value := SelString "a";
     onValueChange := 1;
     multiselect := Some false;
     children := RArray [ RBoolean false; button "a" "a";
                          RArray [ label "x"; button "b" "b" ]; RNull ];
     style := JUndefined |}.

(** What the conditional example renders: three children out of five
    descendants, both buttons tagged ["default"]. *)
Definition conditional_output : ProviderElement :=
  {| provider_value :=
       {| ctx_value := Some (SelString "a"); ctx_onValueChange := Some 1 |};
     provider_child :=
       {| view_style := JArray [styles_row; JUndefined];
          view_children := RArray
            [ RElement {| type := SegmentedButton; key := Some ".1";
                          props := {[ "icon" := JString "a";
                                      "value" := JString "a";
                                      "segment" := JString "default";
                                      "multiselect" := JBool false;
                                      "style" := JArray [JUndefined] ]} |};
              with_key ".2:0" (label "x");
              RElement {| type := SegmentedButton; key := Some ".2:1";
                          props := {[ "icon" := JString "b";
                                      "value" := JString "b";
                                      "segment" := JString "default";
                                      "multiselect" := JBool false;
                                      "style" := JArray [JUndefined] ]} |} ] |} |}.

(** Two buttons the caller gave keys to, the second inside a list. *)
Definition keyed_children : ReactNode :=
  RArray [ RElement {| type := SegmentedButton; key := Some "left";
                       props := {[ "value" := JString "left" ]} |};
           RArray [ RElement {| type := SegmentedButton; key := Some "a:b";
                                props := {[ "value" := JString "right" ]} |} ] ].

(** ** The pass-through rule as the specification words it *)


(** * Lemmas on the React model *)

Lemma Children_nodes_leaf (c : ReactNode) :
  Forall (λ n, is_leaf n = true) (Children_nodes c).
Proof.
  revert c. fix IH 1. intros [ | | b | s | n | e | r | items]; simpl;
    try (by repeat constructor).
  induction items as [|x xs IHxs]; simpl.
  - constructor.
  - apply Forall_app. split; [apply IH | apply IHxs].
Qed.

(** The traversal names the nodes it visits and changes none. *)
Lemma Children_entries_nodes (name : string) (c : ReactNode) :
  (Children_entries name c).*2 = Children_nodes c.
Proof.
  revert name c. fix IH 2. intros name [ | | b | s | n | e | r | items];
    simpl; try done.
  generalize 0.
  generalize (if String.eqb name "" then "." else String.append name ":").
  induction items as [|x xs IHxs]; intros prefix i; simpl; [done|].
  rewrite fmap_app. f_equal; [apply IH | apply IHxs].
Qed.

Lemma with_key_null k n : with_key k n = RNull ↔ n = RNull.
Proof. by destruct n. Qed.

Lemma with_key_is_button k n : is_button (with_key k n) = is_button n.
Proof. by destruct n. Qed.

Lemma with_key_segment k n : segment_prop (with_key k n) = segment_prop n.
Proof. by destruct n. Qed.

Lemma annotate_leaf count ms c i :
  is_leaf c = true → is_leaf (annotate count ms c i) = true.
Proof.
  destruct c; simpl; try done. by case_decide.
Qed.

Lemma annotate_null count ms c i :
  annotate count ms c i = RNull ↔ c = RNull.
Proof.
  destruct c; simpl; try done. by case_decide.
Qed.

(** The callback returns an element under the key the child had, so the
    new key is the child's name alone. *)
Lemma mapped_key_prefix_same (e e' : ReactElement) :
  key e' = key e → mapped_key_prefix (RElement e) e' = "".
Proof.
  intros Hkey. unfold mapped_key_prefix. rewrite Hkey. simpl.
  destruct (key e) as [k|]; [|done].
  rewrite bool_decide_eq_false_2; [done|]. by intros [_ ?].
Qed.

Lemma Children_collect_annotate name count ms c i :
  is_leaf c = true →
  Children_collect name c (annotate count ms c i)
  = filter (λ m, m ≠ RNull) [with_key name (annotate count ms c i)].
Proof.
  intros Hleaf. destruct c as [ | | b | s | n | e | r | items]; try done.
  unfold annotate. case_decide; unfold Children_collect.
  - by rewrite mapped_key_prefix_same.
  - by rewrite mapped_key_prefix_same.
Qed.

Lemma concat_imap_singletons {A} (F : nat → A → list ReactNode)
    (f : nat → A → ReactNode) (l : list A) :
  (∀ i x, l !! i = Some x → F i x = filter (λ m, m ≠ RNull) [f i x]) →
  concat (imap F l) = filter (λ m, m ≠ RNull) (imap f l).
Proof.
  revert F f. induction l as [|x l IH]; intros F f HF; [done|].
  rewrite !imap_cons. cbn [concat].
  rewrite (IH (F ∘ S) (f ∘ S)) by (intros i y Hy; by apply (HF (S i))).
  rewrite (HF 0 x eq_refl).
  rewrite (filter_cons _ (f 0 x) (imap _ _)), filter_cons, filter_nil.
  by case_decide.
Qed.

Lemma filter_all {A} (P : A → Prop) `{!∀ x, Decision (P x)} (l : list A) :
  Forall P l → filter P l = l.
Proof.
  induction 1 as [|x l Hx _ IH]; [done|].
  by rewrite filter_cons_True, IH.
Qed.

Lemma not_not_null (n : ReactNode) : ¬ n ≠ RNull → n = RNull.
Proof. intros Hn. destruct n; try done; exfalso; by apply Hn. Qed.

(** A function that keeps [null] apart from the rest keeps what a view of
    the nodes sees once the empty ones are left out. *)
Lemma filter_imap_view {A B} (g : ReactNode → B) (π : A → ReactNode)
    (f : nat → A → ReactNode) (l : list A) :
  (∀ j y, f j y = RNull ↔ π y = RNull) →
  (∀ j y, g (f j y) = g (π y)) →
  g <$> filter (λ m, m ≠ RNull) (imap f l)
  = g <$> filter (λ m, m ≠ RNull) (π <$> l).
Proof.
  revert f. induction l as [|y l IH]; intros f Hnull Hg; [done|].
  rewrite imap_cons, fmap_cons, (filter_cons _ (f 0 y)), (filter_cons _ (π y)).
  assert (Hrest : g <$> filter (λ m, m ≠ RNull) (imap (f ∘ S) l)
                  = g <$> filter (λ m, m ≠ RNull) (π <$> l)).
  { apply IH; intros j z; [apply (Hnull (S j))|apply (Hg (S j))]. }
  destruct (decide (f 0 y ≠ RNull)) as [Hy|Hy],
           (decide (π y ≠ RNull)) as [Hy'|Hy'].
  - by rewrite !fmap_cons, Hg, Hrest.
  - exfalso. apply Hy. apply Hnull. by apply not_not_null.
  - exfalso. apply Hy'. apply (Hnull 0). by apply not_not_null.
  - done.
Qed.

Lemma filter_imap_length {A} (π : A → ReactNode) (f : nat → A → ReactNode)
    (l : list A) :
  (∀ j y, f j y = RNull ↔ π y = RNull) →
  length (filter (λ m, m ≠ RNull) (imap f l))
  = length (filter (λ m, m ≠ RNull) (π <$> l)).
Proof.
  intros Hnull.
  pose proof (filter_imap_view (λ _, ()) π f l Hnull (λ _ _, eq_refl)) as Hview.
  apply (f_equal length) in Hview. by rewrite !length_fmap in Hview.
Qed.

Lemma take_imap {A B} (f : nat → A → B) (l : list A) (n : nat) :
  take n (imap f l) = imap f (take n l).
Proof.
  revert f n. induction l as [|x l IH]; intros f [|n]; [done..|].
  simpl. f_equal. apply IH.
Qed.

Lemma filter_lookup_rank {A} (P : A → Prop) `{!∀ x, Decision (P x)}
    (l : list A) (i : nat) (x : A) :
  l !! i = Some x → P x →
  filter P l !! length (filter P (take i l)) = Some x.
Proof.
  revert i. induction l as [|y l IH]; intros [|i] Hi HP; simplify_eq/=.
  - by rewrite filter_cons_True.
  - rewrite !filter_cons. case_decide; simpl; by apply IH.
Qed.

Lemma filter_lookup_preimage {A} (P : A → Prop) `{!∀ x, Decision (P x)}
    (l : list A) (j : nat) (x : A) :
  filter P l !! j = Some x →
  ∃ i, l !! i = Some x ∧ P x ∧ length (filter P (take i l)) = j.
Proof.
  revert j. induction l as [|y l IH]; intros j; [done|].
  rewrite filter_cons. destruct (decide (P y)) as [Hy|Hy].
  - destruct j as [|j]; simpl.
    + intros [= ->]. by exists 0.
    + intros (i & Hi & Hx & Hlen)%IH. exists (S i). split_and!; [done..|].
      simpl. by rewrite filter_cons_True, <- Hlen.
  - intros (i & Hi & Hx & Hlen)%IH. exists (S i). split_and!; [done..|].
    simpl. by rewrite filter_cons_False.
Qed.

(** * The annotation callback *)

Lemma annotate_button count ms e i :
  type e = SegmentedButton →
  annotate count ms (RElement e) i =
    RElement
      {| type := SegmentedButton;
         key := key e;
         props := <["style" := JArray [get_prop e "style"]]>
                    (<["multiselect" := js_of_flag ms]>
                       (<["segment" := JString (segment_of count i)]> (props e))) |}.
Proof.
  intros He. unfold annotate, cloneElement. rewrite decide_True by done.
  by rewrite He.
Qed.

Lemma annotate_other count ms c i :
  is_button c = false → annotate count ms c i = c.
Proof.
  destruct c; simpl; try done. intros He%bool_decide_eq_false.
  by rewrite decide_False.
Qed.

Lemma segment_of_index count i :
  1 ≤ count →
  segment_of count i =
    if i =? 0 then "first" else if i =? count - 1 then "last" else "default".
Proof.
  intros Hc. unfold segment_of. destruct (i =? 0); [done|].
  destruct (Nat.eqb_spec i (count - 1)) as [->|Hne].
  - rewrite (proj2 (Z.eqb_eq _ _)); [done|lia].
  - rewrite (proj2 (Z.eqb_neq _ _)); [done|lia].
Qed.

Lemma segment_of_first count i : segment_of count i = "first" ↔ i = 0.
Proof.
  unfold segment_of. destruct (Nat.eqb_spec i 0) as [->|Hi]; [done|].
  split; [|done]. by case_match.
Qed.

Lemma segment_of_last count i :
  segment_of count i = "last" ↔ i ≠ 0 ∧ S i = count.
Proof.
  unfold segment_of. destruct (Nat.eqb_spec i 0) as [->|Hi].
  - split; [done|]. by intros [? _].
  - destruct (Z.eqb_spec (Z.of_nat i) (Z.of_nat count - 1)) as [Heq|Hne].
    + split; [|done]. intros _. split; [done|]. lia.
    + split; [done|]. intros [_ Hc]. lia.
Qed.

Lemma is_button_element n :
  is_button n = true ↔ ∃ e, n = RElement e ∧ type e = SegmentedButton.
Proof.
  destruct n; simpl; split; try done; try (by intros (? & ? & ?)).
  - intros He%bool_decide_eq_true. eauto.
  - intros (e' & [= <-] & He). by apply bool_decide_eq_true.
Qed.

(** The props a cloned button carries. *)
Section cloned.
Context (count : nat) (ms : option bool) (e : ReactElement) (i : nat).
Hypothesis He : type e = SegmentedButton.

Lemma cloned_is_button : is_button (annotate count ms (RElement e) i) = true.
Proof. by rewrite annotate_button. Qed.

Lemma cloned_segment :
  segment_prop (annotate count ms (RElement e) i) = Some (segment_of count i).
Proof.
  rewrite annotate_button by done. simpl.
  by rewrite !lookup_insert_ne, lookup_insert_eq by done.
Qed.
End cloned.

Lemma annotate_is_button count ms c i :
  is_button (annotate count ms c i) = is_button c.
Proof.
  destruct (is_button c) eqn:Hc.
  - apply is_button_element in Hc as (e & -> & He). by apply cloned_is_button.
  - by rewrite annotate_other.
Qed.

(** * The render function *)

Lemma Children_toArray_imap (c : ReactNode) :
  Children_toArray c =
    filter (λ m, m ≠ RNull)
           (imap (λ _ entry, with_key entry.1 entry.2) (Children_entries "" c)).
Proof.
  unfold Children_toArray, Children_push_all.
  by rewrite (imap_const (λ entry, with_key entry.1 entry.2)).
Qed.

Section render.
Context (p : Props) (h : Hooks).

(** A count of two or more means [children] is not a bare [null] or
    [undefined], so the callback runs on every descendant. *)
Lemma count_descendants :
  2 ≤ Children_count (children p) →
  Children_count (children p) = length (descendants p).
Proof.
  unfold Children_count, descendants.
  destruct (children p); simpl; lia.
Qed.

Lemma descendants_entries :
  descendants p = (Children_entries "" (children p)).*2.
Proof. unfold descendants. by rewrite Children_entries_nodes. Qed.

Lemma descendant_entry i c :
  descendants p !! i = Some c →
  ∃ name, Children_entries "" (children p) !! i = Some (name, c).
Proof.
  rewrite descendants_entries, list_lookup_fmap.
  destruct (Children_entries "" (children p) !! i) as [[name c']|]; [|done].
  intros [= <-]. by exists name.
Qed.

Lemma annotated_null j (entry : string * ReactNode) :
  with_key entry.1
    (annotate (Children_count (children p)) (multiselect p) entry.2 j) = RNull
  ↔ entry.2 = RNull.
Proof. by rewrite with_key_null, annotate_null. Qed.

Lemma render_throws :
  Children_count (children p) < 2 ∨ 5 < Children_count (children p) →
  SegmentedButtonGroup p h = (inl (Error invalid_count_message), h).
Proof.
  intros Hc. unfold SegmentedButtonGroup.
  set (count := Children_count (children p)) in *.
  assert ((count <? 2) || (5 <? count) = true) as ->; [|done].
  apply orb_true_iff. rewrite !Nat.ltb_lt. lia.
Qed.

Lemma render_returns :
  2 ≤ Children_count (children p) ≤ 5 →
  SegmentedButtonGroup p h =
    (inr {| provider_value :=
              {| ctx_value := Some (value p);
                 ctx_onValueChange := Some (onValueChange p) |};
            provider_child :=
              {| view_style := JArray [styles_row; style p];
                 view_children :=
                   RArray (filter (λ m, m ≠ RNull) (annotated p)) |} |}, h).
Proof.
  intros Hc. unfold SegmentedButtonGroup.
  set (count := Children_count (children p)) in *.
  assert ((count <? 2) || (5 <? count) = false) as ->.
  { apply orb_false_iff. rewrite !Nat.ltb_ge. lia. }
  assert (Hmap : ∀ fn, Children_map (children p) fn =
    RArray (concat (imap (λ i entry,
                            Children_collect entry.1 entry.2 (fn entry.2 i))
                         (Children_entries "" (children p))))).
  { intros fn. subst count. unfold Children_count in Hc.
    destruct (children p); simpl in *; (done || lia). }
  rewrite Hmap. unfold mbind, Render_bind, mret, Render_ret. do 5 f_equal.
  unfold annotated.
  apply concat_imap_singletons. intros i [name c] Hi. simpl.
  apply Children_collect_annotate.
  pose proof (Children_nodes_leaf (children p)) as Hall.
  rewrite Forall_lookup in Hall. apply (Hall i).
  by rewrite <- (Children_entries_nodes ""), list_lookup_fmap, Hi.
Qed.

Lemma render_cases :
  (Children_count (children p) < 2 ∨ 5 < Children_count (children p))
  ∨ 2 ≤ Children_count (children p) ≤ 5.
Proof. lia. Qed.

(** A render that returned did so on a valid count, with the hooks as
    they were. *)
Lemma render_inv out h' :
  SegmentedButtonGroup p h = (inr out, h') →
  2 ≤ Children_count (children p) ≤ 5 ∧ h' = h ∧
  provider_value out =
    {| ctx_value := Some (value p);
       ctx_onValueChange := Some (onValueChange p) |} ∧
  view_style (provider_child out) = JArray [styles_row; style p] ∧
  rendered_children out = filter (λ m, m ≠ RNull) (annotated p).
Proof.
  destruct render_cases as [Hc|Hc].
  - rewrite (render_throws Hc). discriminate.
  - rewrite (render_returns Hc). intros [= <- <-]. done.
Qed.

Lemma annotated_rank i :
  length (filter (λ m, m ≠ RNull) (take i (annotated p))) = output_index p i.
Proof.
  unfold annotated, output_index.
  rewrite take_imap, (filter_imap_length snd) by apply annotated_null.
  by rewrite descendants_entries, fmap_take.
Qed.
End render.

(** ** Where a child is rendered and where a rendered child comes from *)

Section rendered.
Context (p : Props) (h : Hooks) (out : ProviderElement).
Hypothesis Hrun : SegmentedButtonGroup p h = (inr out, h).

(** A non-empty descendant's annotated value sits at its output index,
    under the key that is the descendant's name. *)
Lemma rendered_lookup i c :
  descendants p !! i = Some c → c ≠ RNull →
  ∃ name, Children_entries "" (children p) !! i = Some (name, c) ∧
    rendered_children out !! output_index p i
      = Some (with_key name
                (annotate (Children_count (children p)) (multiselect p) c i)).
Proof.
  intros Hi Hc. destruct (descendant_entry p i c Hi) as [name Hentry].
  exists name. split; [done|].
  destruct (render_inv p h out h Hrun) as (_ & _ & _ & _ & ->).
  rewrite <- annotated_rank. apply filter_lookup_rank.
  - unfold annotated. by rewrite list_lookup_imap, Hentry.
  - intros Hnull. apply Hc. by apply (annotated_null p i (name, c)).
Qed.

(** A button is rendered as its clone, under its new key. *)
Lemma rendered_button i e :
  descendants p !! i = Some (RElement e) → type e = SegmentedButton →
  ∃ name,
    rendered_children out !! output_index p i =
      Some (RElement
              {| type := SegmentedButton;
                 key := Some name;
                 props := <["style" := JArray [get_prop e "style"]]>
                            (<["multiselect" := js_of_flag (multiselect p)]>
                               (<["segment" :=
                                    JString (segment_of (Children_count (children p)) i)]>
                                  (props e))) |}).
Proof.
  intros Hi He. destruct (rendered_lookup i (RElement e) Hi) as (name & _ & Hout);
    [done|].
  exists name. by rewrite annotate_button in Hout.
Qed.

Lemma rendered_length :
  length (rendered_children out) = length (Children_toArray (children p)).
Proof.
  destruct (render_inv p h out h Hrun) as (_ & _ & _ & _ & ->).
  rewrite Children_toArray_imap. unfold annotated.
  rewrite !(filter_imap_length snd); [done| |apply annotated_null].
  intros j entry. apply with_key_null.
Qed.

Lemma rendered_preimage j b :
  rendered_children out !! j = Some b →
  ∃ i name c, Children_entries "" (children p) !! i = Some (name, c) ∧
         descendants p !! i = Some c ∧ c ≠ RNull ∧ output_index p i = j ∧
         b = with_key name
               (annotate (Children_count (children p)) (multiselect p) c i).
Proof.
  destruct (render_inv p h out h Hrun) as (_ & _ & _ & _ & ->).
  intros (i & Hi & Hb & Hlen)%filter_lookup_preimage.
  rewrite annotated_rank in Hlen.
  unfold annotated in Hi. rewrite list_lookup_imap in Hi.
  destruct (Children_entries "" (children p) !! i) as [[name c]|] eqn:Hentry;
    [|done].
  injection Hi as <-. exists i, name, c. split_and!; [done| | |done..].
  - by rewrite descendants_entries, list_lookup_fmap, Hentry.
  - intros ->. by apply Hb.
Qed.

(** The final descendant, when it is not empty, is rendered last. *)
Lemma rendered_final i c :
  descendants p !! i = Some c → c ≠ RNull → S i = length (descendants p) →
  S (output_index p i) = length (rendered_children out).
Proof.
  intros Hi Hc Hlen.
  destruct (render_inv p h out h Hrun) as (_ & _ & _ & _ & ->).
  unfold annotated. rewrite (filter_imap_length snd) by apply annotated_null.
  rewrite <- descendants_entries. unfold output_index.
  rewrite <- (take_ge (descendants p) (S i)) at 2 by lia.
  rewrite (take_S_r _ _ _ Hi), filter_app, length_app.
  rewrite (filter_cons_True _ c) by done. simpl. lia.
Qed.
End rendered.

(** ** Style lists *)

(** A two-entry style list resolves to the second entry's properties over
    the first's. *)
Lemma flattenStyle_pair (a b : JSValue) :
  flattenStyle (JArray [a; b]) = flattenStyle b ∪ flattenStyle a.
Proof.
  unfold flattenStyle. cbn [StyleSheet_flatten foldl default].
  destruct (StyleSheet_flatten a), (StyleSheet_flatten b); simpl;
    by rewrite ?(right_id_L ∅ (∪)), ?(left_id_L ∅ (∪)).
Qed.

(** * The claims *)

(** On children that are React nodes the render throws the count error
    exactly when the count is below 2 or above 5, and returns
    otherwise. *)
Lemma node_children_outcome (p : Props) (h : Hooks) :
  let c := Children_count (children p) in
  ((∃ e h', SegmentedButtonGroup p h = (inl e, h')) ↔ (c < 2 ∨ 5 < c)) ∧
  (∀ e h', SegmentedButtonGroup p h = (inl e, h') →
           e = Error invalid_count_message ∧ h' = h) ∧
  ((∃ out, SegmentedButtonGroup p h = (inr out, h)) ↔ 2 ≤ c ≤ 5).
Proof.
  intros c. destruct (render_cases p) as [Hc|Hc].
  - pose proof (render_throws p h Hc) as Hrun. fold c in Hc.
    split_and!.
    + split; [done|]. intros _. eauto.
    + intros e h'. rewrite Hrun. by intros [= <- <-].
    + split; [|lia]. intros [out Hout]. rewrite Hrun in Hout. discriminate.
  - pose proof (render_returns p h Hc) as Hrun. fold c in Hc.
    split_and!.
    + split; [|lia]. intros (e & h' & He). rewrite Hrun in He. discriminate.
    + intros e h'. rewrite Hrun. discriminate.
    + split; [done|]. intros _. eauto.
Qed.

(** C1, counterexample.  A plain object next to a button: two direct
    descendants, and construction fails, with React's own error. *)
Lemma object_child_fails_with_valid_count :
  ¬ fails_only_on_count usage_props object_and_button.
Proof.
  intros Hclaim. destruct (Hclaim []) as [Hfail _].
  assert (Hcount : ChildrenValue_count object_and_button < 2
                   ∨ 5 < ChildrenValue_count object_and_button).
  { apply Hfail. by eexists _, _. }
  vm_compute in Hcount. lia.
Qed.

(** C1, amended.  Construction fails in two ways only, both at the count
    of line 63 and both leaving the hooks as they were.  When the
    children hold a plain object, [React.Children.count] throws its own
    error, whatever the number of children.  When they are React nodes,
    the component throws the count message exactly when the count is
    below 2 or above 5 and returns exactly when it is from 2 to 5,
    whatever the other props and the children are.  A failure is the
    whole result: no element comes with it. *)
Theorem construction_failures (p : Props) (c : ChildrenValue) (h : Hooks) :
  (∀ e, as_ReactNode c = inl e →
        SegmentedButtonGroup_call p c h = (inl e, h)) ∧
  (∀ n, as_ReactNode c = inr n →
        (SegmentedButtonGroup_call p c h = (inl (Error invalid_count_message), h)
         ↔ (Children_count n < 2 ∨ 5 < Children_count n)) ∧
        ((∃ out, SegmentedButtonGroup_call p c h = (inr out, h))
         ↔ 2 ≤ Children_count n ≤ 5)) ∧
  (∀ e h', SegmentedButtonGroup_call p c h = (inl e, h') →
           h' = h ∧ (e = Error invalid_count_message ∨ as_ReactNode c = inl e)).
Proof.
  unfold SegmentedButtonGroup_call.
  destruct (as_ReactNode c) as [e0|n] eqn:Hc.
  - split_and!.
    + by intros e [= <-].
    + intros n [=].
    + intros e h' [= <- <-]. auto.
  - pose proof (node_children_outcome (with_children p n) h) as Hout.
    simpl in Hout. destruct Hout as (Hfail & Herr & Hok). split_and!.
    + intros e [=].
    + intros n' [= <-]. split; [|exact Hok]. rewrite <- Hfail. split.
      * intros Hrun. by eexists _, _.
      * intros (e & h' & Hrun). by destruct (Herr e h' Hrun) as [-> ->].
    + intros e h' Hrun. destruct (Herr e h' Hrun) as [-> ->]. auto.
Qed.

(** The count examples of the specification: one child and six children
    throw, two children render. *)
Example one_child_throws :
  SegmentedButtonGroup (mkProps SelNull 1 None (button "a" "a") JUndefined) []
  = (inl (Error invalid_count_message), []).
Proof. reflexivity. Qed.

Example six_children_throw :
  SegmentedButtonGroup
    (mkProps SelNull 1 None (RArray (replicate 6 (button "a" "a"))) JUndefined) []
  = (inl (Error invalid_count_message), []).
Proof. reflexivity. Qed.

Example no_children_throw :
  SegmentedButtonGroup (mkProps SelNull 1 None RUndefined JUndefined) []
  = (inl (Error invalid_count_message), []).
Proof. reflexivity. Qed.

(** C2, counterexample.  With a label before three buttons the first
    button is at index 1 of four descendants and is tagged ["default"]. *)
Lemma first_button_after_label_is_default :
  ¬ buttons_tagged_by_rank labelled_props.
Proof.
  intros Hclaim.
  destruct (Hclaim [] _ eq_refl) as (Hfirst & _ & _).
  specialize (Hfirst _ eq_refl). vm_compute in Hfirst. discriminate.
Qed.

(** C2, amended.  A button is tagged by its index among all direct
    descendants: ["first"] at index 0, ["last"] at the final index,
    ["default"] otherwise; it is rendered at its output index.  When every
    descendant is a button, the tags are those of the first, the last and
    the other buttons. *)
Theorem segment_by_sibling_index (p : Props) (h : Hooks) (out : ProviderElement) :
  SegmentedButtonGroup p h = (inr out, h) →
  (∀ i e, descendants p !! i = Some (RElement e) → type e = SegmentedButton →
     ∃ b, rendered_children out !! output_index p i = Some b ∧
          is_button b = true ∧
          segment_prop b =
            Some (if i =? 0 then "first"
                  else if i =? length (descendants p) - 1 then "last"
                  else "default")) ∧
  (Forall (λ c, is_button c = true) (descendants p) →
   buttons_tagged_by_rank p).
Proof.
  intros Hrun.
  pose proof (render_inv p h out h Hrun) as (Hc & _).
  pose proof (count_descendants p (proj1 Hc)) as Hlen.
  assert (Hseg : ∀ i, segment_of (Children_count (children p)) i =
            if i =? 0 then "first"
            else if i =? length (descendants p) - 1 then "last"
            else "default").
  { intros i. rewrite <- Hlen. apply segment_of_index. lia. }
  split.
  - intros i e Hi He.
    destruct (rendered_button p h out Hrun i e Hi He) as [name Hout].
    eexists. split; [exact Hout|]. split; [done|]. simpl.
    by rewrite !lookup_insert_ne, lookup_insert_eq, Hseg by done.
  - intros Hall h' out' Hrun'. rewrite Forall_lookup in Hall.
    assert (Hnonnull : Forall (λ m, m ≠ RNull) (descendants p)).
    { apply Forall_lookup. intros i c Hi ->. by apply Hall in Hi. }
    assert (Hidx : ∀ i, i < length (descendants p) → output_index p i = i).
    { intros i Hi. unfold output_index. rewrite filter_all.
      - rewrite length_take. lia.
      - by apply Forall_take. }
    assert (Hat : ∀ j b, rendered_children out' !! j = Some b →
              is_button b = true ∧
              segment_prop b =
                Some (if j =? 0 then "first"
                      else if j =? length (descendants p) - 1 then "last"
                      else "default")).
    { intros j b Hj.
      destruct (rendered_preimage p h' out' Hrun' j b Hj)
        as (i & name & c & _ & Hi & _ & Hout & ->).
      rewrite Hidx in Hout by (by eapply lookup_lt_Some). subst j.
      pose proof (Hall _ _ Hi) as (e & -> & He)%is_button_element.
      rewrite with_key_is_button, with_key_segment.
      by rewrite cloned_is_button, cloned_segment, Hseg. }
    assert (Hsize : length (rendered_children out') = length (descendants p)).
    { rewrite (rendered_length p h' out' Hrun'), Children_toArray_imap.
      rewrite (filter_imap_length snd) by (intros j entry; apply with_key_null).
      by rewrite <- descendants_entries, filter_all. }
    assert (Hsame : filter (λ n, is_button n = true) (rendered_children out')
                    = rendered_children out').
    { apply filter_all, Forall_lookup. intros j b Hj. by apply (Hat j b). }
    cbn zeta. rewrite Hsame, Hsize. split_and!.
    + intros b Hb. by destruct (Hat 0 b Hb) as [_ ->].
    + intros b Hn Hb. destruct (Hat _ b Hb) as [_ ->].
      destruct (Nat.eqb_spec (length (descendants p) - 1) 0); [lia|].
      by rewrite Nat.eqb_refl.
    + intros j b Hj Hb. destruct (Hat j b Hb) as [_ ->].
      destruct (Nat.eqb_spec j 0); [lia|].
      destruct (Nat.eqb_spec j (length (descendants p) - 1)); [lia|done].
Qed.

(** C3.  Every button is rendered with the group's [multiselect] as its
    [multiselect] prop: the boolean when the group has one, [undefined]
    when it has none, whatever the button carried before. *)
Theorem multiselect_forwarded (p : Props) (h : Hooks) (out : ProviderElement)
    (i : nat) (e : ReactElement) :
  SegmentedButtonGroup p h = (inr out, h) →
  descendants p !! i = Some (RElement e) →
  type e = SegmentedButton →
  ∃ e', rendered_children out !! output_index p i = Some (RElement e') ∧
        type e' = SegmentedButton ∧
        props e' !! "multiselect" = Some (js_of_flag (multiselect p)) ∧
        get_prop e' "multiselect" = js_of_flag (multiselect p).
Proof.
  intros Hrun Hi He.
  destruct (rendered_button p h out Hrun i e Hi He) as [name Hout].
  eexists. split; [exact Hout|]. split; [done|].
  unfold get_prop. simpl.
  by rewrite lookup_insert_ne, lookup_insert_eq by done.
Qed.



(** C5.  The provider's value holds the [value] and the [onValueChange]
    of the props, the same references, and that is what a descendant
    reads from the context. *)
Theorem context_carries_props (p : Props) (h : Hooks) (out : ProviderElement) :
  SegmentedButtonGroup p h = (inr out, h) →
  provider_value out =
    {| ctx_value := Some (value p);
       ctx_onValueChange := Some (onValueChange p) |} ∧
  ∀ outer, ctx_value (useContext (provider_value out :: outer)) = Some (value p) ∧
           ctx_onValueChange (useContext (provider_value out :: outer))
             = Some (onValueChange p).
Proof.
  intros Hrun. apply render_inv in Hrun as (_ & _ & Hctx & _ & _).
  by rewrite Hctx.
Qed.

(** C6.  The container's style is the two-entry list of the row default
    and the caller's style, in that order; resolved, a property the
    caller's style sets is the caller's, any other is the default's, and
    the default sets [flexDirection] to ['row']. *)
Theorem container_style (p : Props) (h : Hooks) (out : ProviderElement) :
  SegmentedButtonGroup p h = (inr out, h) →
  view_style (provider_child out) = JArray [styles_row; style p] ∧
  (∀ name, flattenStyle (view_style (provider_child out)) !! name =
           match flattenStyle (style p) !! name with
           | Some v => Some v
           | None => flattenStyle styles_row !! name
           end) ∧
  flattenStyle styles_row = {[ "flexDirection" := JString "row" ]}.
Proof.
  intros Hrun. apply render_inv in Hrun as (_ & _ & _ & Hstyle & _).
  rewrite Hstyle. split_and!; [done| |done].
  intros name.
  rewrite flattenStyle_pair, lookup_union.
  by destruct (flattenStyle (style p) !! name), (flattenStyle styles_row !! name).
Qed.

(** C7.  A rendered button's style is the one-entry list of the style the
    button had ([undefined] when it had none), and the rendered children
    are the same whatever the group-level style is. *)
Theorem button_style_is_own (p : Props) (h : Hooks) (out : ProviderElement)
    (i : nat) (e : ReactElement) :
  SegmentedButtonGroup p h = (inr out, h) →
  descendants p !! i = Some (RElement e) →
  type e = SegmentedButton →
  (∃ e', rendered_children out !! output_index p i = Some (RElement e') ∧
         props e' !! "style" = Some (JArray [get_prop e "style"])) ∧
  (∀ s out', SegmentedButtonGroup (with_style p s) h = (inr out', h) →
             rendered_children out' = rendered_children out).
Proof.
  intros Hrun Hi He. split.
  - destruct (rendered_button p h out Hrun i e Hi He) as [name Hout].
    eexists. split; [exact Hout|]. simpl. by rewrite lookup_insert_eq.
  - intros s out' Hrun'.
    apply render_inv in Hrun as (_ & _ & _ & _ & ->).
    apply render_inv in Hrun' as (_ & _ & _ & _ & ->). done.
Qed.

(** C9.  The count is the number of direct descendants, whatever they
    are: with 2 to 5 descendants none of which is a button the component
    returns, and the rendered children are the children as
    [React.Children.toArray] lists them. *)
Theorem count_ignores_types (p : Props) (h : Hooks) :
  2 ≤ Children_count (children p) ≤ 5 →
  Forall (λ c, is_button c = false) (descendants p) →
  Children_count (children p) = length (descendants p) ∧
  SegmentedButtonGroup p h =
    (inr {| provider_value :=
              {| ctx_value := Some (value p);
                 ctx_onValueChange := Some (onValueChange p) |};
            provider_child :=
              {| view_style := JArray [styles_row; style p];
                 view_children := RArray (Children_toArray (children p)) |} |},
     h).
Proof.
  intros Hc Hnone. split; [apply count_descendants; lia|].
  rewrite (render_returns p h Hc). do 5 f_equal.
  rewrite Children_toArray_imap. f_equal. unfold annotated.
  rewrite Forall_lookup in Hnone.
  apply imap_ext. intros j [name c] Hj. simpl. f_equal.
  apply annotate_other. apply (Hnone j).
  by rewrite descendants_entries, list_lookup_fmap, Hj.
Qed.

(** C10.  The context's default value has neither field: a descendant
    that reads the context outside any group gets [undefined] for [value]
    and for [onValueChange]. *)
Theorem default_context_is_empty :
  useContext [] = SegmentedButtonGroupContext ∧
  ctx_value (useContext []) = None ∧
  ctx_onValueChange (useContext []) = None.
Proof. done. Qed.

(** * The claims on the example inputs *)

Example usage_renders :
  SegmentedButtonGroup usage_props [] = (inr usage_output, []).
Proof. vm_compute. reflexivity. Qed.

Example labelled_renders :
  SegmentedButtonGroup labelled_props [] = (inr labelled_output, []).
Proof. vm_compute. reflexivity. Qed.

(** Five buttons: the middle three are tagged ["default"]. *)
Example five_buttons_segments :
  ∃ out,
    SegmentedButtonGroup
      (mkProps SelNull 1 None (RArray (replicate 5 (button "a" "a"))) JUndefined) []
      = (inr out, []) ∧
    segment_prop <$> rendered_children out =
      [Some "first"; Some "default"; Some "default"; Some "default"; Some "last"].
Proof. eexists. split; [reflexivity|]. vm_compute. reflexivity. Qed.

(** An empty child counts as a descendant but is not rendered: one button
    next to [false] passes the count check and is the only child of the
    container. *)
Example empty_child_is_counted :
  ∃ out,
    SegmentedButtonGroup
      (mkProps SelNull 1 None (RArray [button "a" "a"; RBoolean false]) JUndefined) []
      = (inr out, []) ∧
    length (rendered_children out) = 1 ∧
    segment_prop <$> rendered_children out = [Some "first"].
Proof. eexists. split; [reflexivity|]. vm_compute. done. Qed.

(** The keys [React.Children.map] gives: the escaped key of a child
    that has one, under the name of the list it sits in. *)
Example keyed_children_keys :
  ∃ out,
    SegmentedButtonGroup (with_children usage_props keyed_children) []
      = (inr out, []) ∧
    key_of <$> rendered_children out = [Some ".$left"; Some ".1:$a=2b"].
Proof. eexists. split; [reflexivity|]. vm_compute. reflexivity. Qed.

Example base36_of_large_index : base36 35 = "z" ∧ base36 36 = "10".
Proof. split; reflexivity. Qed.

(** Construction on the usage example, on a lone button and on a plain
    object next to a button. *)
Lemma construction_failures_witness :
  (∃ out, SegmentedButtonGroup_call usage_props (Node (children usage_props)) []
            = (inr out, [])) ∧
  SegmentedButtonGroup_call usage_props (Node (button "a" "a")) []
    = (inl (Error invalid_count_message), []) ∧
  SegmentedButtonGroup_call usage_props object_and_button []
    = (inl (Error (invalid_object_message "object with keys {}")), []).
Proof.
  split_and!.
  - destruct (construction_failures usage_props (Node (children usage_props)) [])
      as (_ & Hnode & _).
    destruct (Hnode _ eq_refl) as [_ Hok]. apply Hok. vm_compute. lia.
  - destruct (construction_failures usage_props (Node (button "a" "a")) [])
      as (_ & Hnode & _).
    destruct (Hnode _ eq_refl) as [Hfail _]. apply Hfail. vm_compute. lia.
  - destruct (construction_failures usage_props object_and_button [])
      as (Hobject & _ & _).
    apply Hobject. reflexivity.
Defined.

(** The index rule on the usage example. *)
Lemma segment_by_sibling_index_witness :
  SegmentedButtonGroup usage_props [] = (inr usage_output, []) ∧
  ((∀ i e, descendants usage_props !! i = Some (RElement e) →
           type e = SegmentedButton →
     ∃ b, rendered_children usage_output !! output_index usage_props i = Some b ∧
          is_button b = true ∧
          segment_prop b =
            Some (if i =? 0 then "first"
                  else if i =? length (descendants usage_props) - 1 then "last"
                  else "default")) ∧
   (Forall (λ c, is_button c = true) (descendants usage_props) →
    buttons_tagged_by_rank usage_props)).
Proof.
  split; [vm_compute; reflexivity|].
  apply (segment_by_sibling_index usage_props [] usage_output).
  vm_compute; reflexivity.
Defined.

(** The flag reaches the first button of the labelled example. *)
Lemma multiselect_forwarded_witness :
  SegmentedButtonGroup labelled_props [] = (inr labelled_output, []) ∧
  descendants labelled_props !! 1 =
    Some (RElement {| type := SegmentedButton; key := None;
                      props := {[ "icon" := JString "a"; "value" := JString "a" ]} |}) ∧
  ∃ e', rendered_children labelled_output !! output_index labelled_props 1
          = Some (RElement e') ∧
        type e' = SegmentedButton ∧
        props e' !! "multiselect" = Some (JBool true) ∧
        get_prop e' "multiselect" = JBool true.
Proof.
  split; [vm_compute; reflexivity|]. split; [vm_compute; reflexivity|].
  apply (multiselect_forwarded labelled_props [] labelled_output 1
           {| type := SegmentedButton; key := None;
              props := {[ "icon" := JString "a"; "value" := JString "a" ]} |});
    vm_compute; reflexivity.
Defined.


(** The context of the usage example. *)
Lemma context_carries_props_witness :
  SegmentedButtonGroup usage_props [] = (inr usage_output, []) ∧
  provider_value usage_output =
    {| ctx_value := Some (SelString "left"); ctx_onValueChange := Some 1 |} ∧
  ∀ outer,
    ctx_value (useContext (provider_value usage_output :: outer))
      = Some (SelString "left") ∧
    ctx_onValueChange (useContext (provider_value usage_output :: outer))
      = Some 1.
Proof.
  split; [vm_compute; reflexivity|].
  apply (context_carries_props usage_props [] usage_output).
  vm_compute; reflexivity.
Defined.

(** The container style of the labelled example. *)
Lemma container_style_witness :
  SegmentedButtonGroup labelled_props [] = (inr labelled_output, []) ∧
  view_style (provider_child labelled_output) =
    JArray [styles_row; JObject [("flexDirection", JString "column")]] ∧
  (∀ name, flattenStyle (view_style (provider_child labelled_output)) !! name =
           match flattenStyle (style labelled_props) !! name with
           | Some v => Some v
           | None => flattenStyle styles_row !! name
           end) ∧
  flattenStyle styles_row = {[ "flexDirection" := JString "row" ]}.
Proof.
  split; [vm_compute; reflexivity|].
  apply (container_style labelled_props [] labelled_output).
  vm_compute; reflexivity.
Defined.

(** The caller's [flexDirection] wins over the default's, and the styled
    button keeps its own style, alone in the list. *)
Example styled_button_keeps_style :
  ∃ e', rendered_children labelled_output !! 3 = Some (RElement e') ∧
        get_prop e' "style" = JArray [JObject [("flex", JNumber 1)]].
Proof. eexists. split; [reflexivity|]. vm_compute. reflexivity. Qed.

Example caller_style_overrides :
  flattenStyle (view_style (provider_child labelled_output)) !! "flexDirection"
  = Some (JString "column").
Proof. vm_compute. reflexivity. Qed.

(** The styled button of the labelled example keeps its style. *)
Lemma button_style_is_own_witness :
  SegmentedButtonGroup labelled_props [] = (inr labelled_output, []) ∧
  descendants labelled_props !! 3 =
    Some (styled_button "c" "c" (JObject [("flex", JNumber 1)])) ∧
  (∃ e', rendered_children labelled_output !! output_index labelled_props 3
           = Some (RElement e') ∧
         props e' !! "style" =
           Some (JArray
                   [get_prop {| type := SegmentedButton; key := None;
                                props := {[ "icon" := JString "c";
                                            "value" := JString "c";
                                            "style" := JObject [("flex", JNumber 1)] ]} |}
                             "style"])) ∧
  (∀ s out',
     SegmentedButtonGroup (with_style labelled_props s) [] = (inr out', []) →
     rendered_children out' = rendered_children labelled_output).
Proof.
  split; [vm_compute; reflexivity|]. split; [vm_compute; reflexivity|].
  apply (button_style_is_own labelled_props [] labelled_output 3
           {| type := SegmentedButton; key := None;
              props := {[ "icon" := JString "c"; "value" := JString "c";
                          "style" := JObject [("flex", JNumber 1)] ]} |});
    vm_compute; reflexivity.
Defined.

(** Two labels and no button render. *)
Lemma count_ignores_types_witness :
  2 ≤ Children_count (children labels_props) ≤ 5 ∧
  Forall (λ c, is_button c = false) (descendants labels_props) ∧
  Children_count (children labels_props) = length (descendants labels_props) ∧
  SegmentedButtonGroup labels_props [] =
    (inr {| provider_value :=
              {| ctx_value := Some SelNull; ctx_onValueChange := Some 1 |};
            provider_child :=
              {| view_style := JArray [styles_row; JUndefined];
                 view_children :=
                   RArray [ with_key ".0" (label "one");
                            with_key ".1" (label "two") ] |} |},
     []).
Proof.
  assert (Hcount : 2 ≤ Children_count (children labels_props) ≤ 5)
    by (vm_compute; lia).
  assert (Hnone : Forall (λ c, is_button c = false) (descendants labels_props))
    by (repeat constructor).
  split; [exact Hcount|]. split; [exact Hnone|].
  apply (count_ignores_types labels_props [] Hcount Hnone).
Defined.

(** * Further properties of the render *)

(** ** Extra properties *)

(** X1.  The container gets one child per non-empty descendant: as many
    as [React.Children.toArray] lists, never more than the count that
    was validated, so at most five. *)
Theorem rendered_children_count (p : Props) (h : Hooks) (out : ProviderElement) :
  SegmentedButtonGroup p h = (inr out, h) →
  length (rendered_children out) = length (Children_toArray (children p)) ∧
  length (rendered_children out) ≤ Children_count (children p) ∧
  Children_count (children p) ≤ 5.
Proof.
  intros Hrun. pose proof (rendered_length p h out Hrun) as Hlen.
  destruct (render_inv p h out h Hrun) as (Hc & _).
  split_and!; [done| |lia].
  rewrite Hlen, (count_descendants p) by lia.
  unfold Children_toArray, Children_push_all.
  etrans; [apply length_filter|].
  by rewrite descendants_entries, !length_fmap.
Qed.

(** X3.  Rendering keeps the order of the children and which of them are
    buttons: position by position, the container's children are buttons
    exactly where the non-empty descendants are. *)
Theorem button_positions_preserved (p : Props) (h : Hooks) (out : ProviderElement) :
  SegmentedButtonGroup p h = (inr out, h) →
  is_button <$> rendered_children out
  = is_button <$> Children_toArray (children p).
Proof.
  intros Hrun. destruct (render_inv p h out h Hrun) as (_ & _ & _ & _ & ->).
  rewrite Children_toArray_imap. unfold annotated.
  rewrite (filter_imap_view is_button snd).
  - symmetry. apply (filter_imap_view is_button snd).
    + intros j entry. apply with_key_null.
    + intros j entry. apply with_key_is_button.
  - apply annotated_null.
  - intros j entry. by rewrite with_key_is_button, annotate_is_button.
Qed.

(** X4.  A rendered button keeps its type and every prop other than
    [segment], [multiselect] and [style]: a prop it had is there with the
    same value, a prop it did not have is not added. *)
Theorem button_keeps_other_props (p : Props) (h : Hooks) (out : ProviderElement)
    (i : nat) (e : ReactElement) :
  SegmentedButtonGroup p h = (inr out, h) →
  descendants p !! i = Some (RElement e) →
  type e = SegmentedButton →
  ∃ e', rendered_children out !! output_index p i = Some (RElement e') ∧
        type e' = type e ∧
        ∀ name, written_prop name = false → props e' !! name = props e !! name.
Proof.
  intros Hrun Hi He.
  destruct (rendered_button p h out Hrun i e Hi He) as [name Hout].
  eexists. split; [exact Hout|]. split; [done|].
  intros prop Hprop%bool_decide_eq_false. simpl.
  rewrite !lookup_insert_ne; [done|intros <-; apply Hprop; auto..].
Qed.

(** X7.  A [segment] or a [multiselect] prop that a button already
    carries has no effect: the callback overwrites both. *)
Theorem caller_tags_overwritten (count : nat) (ms : option bool)
    (e : ReactElement) (i : nat) (v : JSValue) :
  type e = SegmentedButton →
  annotate count ms (RElement (with_prop e "segment" v)) i
    = annotate count ms (RElement e) i ∧
  annotate count ms (RElement (with_prop e "multiselect" v)) i
    = annotate count ms (RElement e) i.
Proof.
  intros He. rewrite !annotate_button by done. unfold get_prop. simpl.
  rewrite !lookup_insert_ne by done. split; do 2 f_equal.
  - by rewrite insert_insert_eq.
  - f_equal. rewrite (insert_insert_ne _ "segment" "multiselect") by done.
    by rewrite insert_insert_eq.
Qed.

(** X8.  The end tags sit at the ends.  A rendered button tagged
    ["first"] is the container's first child and comes from a button at
    index 0; one tagged ["last"] is the container's last child and comes
    from a button that is the final descendant.  So at most one child is
    tagged ["first"] and at most one ["last"], and none is when the first,
    or the final, descendant is not a button. *)
Theorem end_tags_sit_at_the_ends (p : Props) (h : Hooks) (out : ProviderElement)
    (j : nat) (b : ReactNode) :
  SegmentedButtonGroup p h = (inr out, h) →
  rendered_children out !! j = Some b →
  is_button b = true →
  (segment_prop b = Some "first" →
   j = 0 ∧ is_button <$> descendants p !! 0 = Some true) ∧
  (segment_prop b = Some "last" →
   S j = length (rendered_children out) ∧
   is_button <$> last (descendants p) = Some true).
Proof.
  intros Hrun Hj Hb.
  destruct (rendered_preimage p h out Hrun j b Hj)
    as (i & name & c & _ & Hi & Hc & Hout & ->).
  destruct (render_inv p h out h Hrun) as (Hcount & _).
  pose proof (count_descendants p (proj1 Hcount)) as Hlen.
  rewrite with_key_is_button, annotate_is_button in Hb.
  pose proof Hb as (e & -> & He)%is_button_element.
  rewrite with_key_segment, cloned_segment by done. split.
  - intros [= Hfirst%segment_of_first]. subst i.
    split; [by rewrite <- Hout|]. rewrite Hi. simpl. f_equal. exact Hb.
  - intros [= (Hne & Hfinal)%segment_of_last]. rewrite Hlen in Hfinal. split.
    + rewrite <- Hout. by apply (rendered_final p h out Hrun i (RElement e)).
    + rewrite last_lookup, <- Hfinal. simpl. rewrite Hi. simpl. f_equal. exact Hb.
Qed.

(** ** The extra properties on the example inputs *)

Example conditional_renders :
  SegmentedButtonGroup conditional_props [] = (inr conditional_output, []).
Proof. vm_compute. reflexivity. Qed.

(** Five descendants, two of them empty: three rendered children. *)
Lemma rendered_children_count_witness :
  SegmentedButtonGroup conditional_props [] = (inr conditional_output, []) ∧
  length (rendered_children conditional_output)
    = length (Children_toArray (children conditional_props)) ∧
  length (rendered_children conditional_output)
    ≤ Children_count (children conditional_props) ∧
  Children_count (children conditional_props) ≤ 5.
Proof.
  split; [vm_compute; reflexivity|].
  apply (rendered_children_count conditional_props [] conditional_output).
  vm_compute; reflexivity.
Defined.

(** Button, label, button: before and after. *)
Lemma button_positions_preserved_witness :
  SegmentedButtonGroup conditional_props [] = (inr conditional_output, []) ∧
  is_button <$> rendered_children conditional_output
    = is_button <$> Children_toArray (children conditional_props).
Proof.
  split; [vm_compute; reflexivity|].
  apply (button_positions_preserved conditional_props [] conditional_output).
  vm_compute; reflexivity.
Defined.

(** The styled button of the labelled example keeps its icon and value. *)
Lemma button_keeps_other_props_witness :
  SegmentedButtonGroup labelled_props [] = (inr labelled_output, []) ∧
  descendants labelled_props !! 3 =
    Some (styled_button "c" "c" (JObject [("flex", JNumber 1)])) ∧
  ∃ e', rendered_children labelled_output !! output_index labelled_props 3
          = Some (RElement e') ∧
        type e' = SegmentedButton ∧
        ∀ name, written_prop name = false →
          props e' !! name =
            ({[ "icon" := JString "c"; "value" := JString "c";
                "style" := JObject [("flex", JNumber 1)] ]}
               : gmap string JSValue) !! name.
Proof.
  assert (Hrun : SegmentedButtonGroup labelled_props [] = (inr labelled_output, []))
    by (vm_compute; reflexivity).
  assert (Hi : descendants labelled_props !! 3 =
               Some (styled_button "c" "c" (JObject [("flex", JNumber 1)])))
    by (vm_compute; reflexivity).
  split; [exact Hrun|]. split; [exact Hi|].
  exact (button_keeps_other_props labelled_props [] labelled_output 3 _
           Hrun Hi eq_refl).
Defined.

(** A button written with [segment="last"] and placed first. *)
Lemma caller_tags_overwritten_witness :
  type {| type := SegmentedButton; key := None; props := {[ "value" := JString "a" ]} |}
    = SegmentedButton ∧
  annotate 2 None
    (RElement (with_prop {| type := SegmentedButton; key := None;
                            props := {[ "value" := JString "a" ]} |}
                         "segment" (JString "last"))) 0
  = annotate 2 None
      (RElement {| type := SegmentedButton; key := None;
                   props := {[ "value" := JString "a" ]} |}) 0 ∧
  annotate 2 None
    (RElement (with_prop {| type := SegmentedButton; key := None;
                            props := {[ "value" := JString "a" ]} |}
                         "multiselect" (JString "last"))) 0
  = annotate 2 None
      (RElement {| type := SegmentedButton; key := None;
                   props := {[ "value" := JString "a" ]} |}) 0.
Proof.
  split; [reflexivity|].
  apply (caller_tags_overwritten 2 None
           {| type := SegmentedButton; key := None; props := {[ "value" := JString "a" ]} |}
           0 (JString "last")).
  reflexivity.
Defined.

(** The first child of the usage example. *)
Lemma end_tags_sit_at_the_ends_witness :
  SegmentedButtonGroup usage_props [] = (inr usage_output, []) ∧
  rendered_children usage_output !! 0 =
    Some (RElement {| type := SegmentedButton; key := Some ".0";
                      props := {[ "icon" := JString "format-align-left";
                                  "value" := JString "left";
                                  "segment" := JString "first";
                                  "multiselect" := JUndefined;
                                  "style" := JArray [JUndefined] ]} |}) ∧
  (segment_prop
     (RElement {| type := SegmentedButton; key := Some ".0";
                  props := {[ "icon" := JString "format-align-left";
                              "value" := JString "left";
                              "segment" := JString "first";
                              "multiselect" := JUndefined;
                              "style" := JArray [JUndefined] ]} |})
     = Some "first" →
   0 = 0 ∧ is_button <$> descendants usage_props !! 0 = Some true) ∧
  (segment_prop
     (RElement {| type := SegmentedButton; key := Some ".0";
                  props := {[ "icon" := JString "format-align-left";
                              "value" := JString "left";
                              "segment" := JString "first";
                              "multiselect" := JUndefined;
                              "style" := JArray [JUndefined] ]} |})
     = Some "last" →
   1 = length (rendered_children usage_output) ∧
   is_button <$> last (descendants usage_props) = Some true).
Proof.
  split; [vm_compute; reflexivity|]. split; [vm_compute; reflexivity|].
  apply (end_tags_sit_at_the_ends usage_props [] usage_output 0);
    vm_compute; reflexivity.
Defined.
